(** * The dashboard activity page of jellyfin-web

  A shallow embedding of [src/apps/dashboard/routes/activity.tsx]: the
  decoding of the [useractivity] query parameter into a view mode, the
  effect that writes the view mode back into the URL, the derived fetch
  parameters, the user directory, the column set and the row actions.

  Conventions of the embedding:
  - a JavaScript value that may be [undefined] or [null] is a [Js.nullable];
  - JavaScript numbers that hold counts and identifiers (page index, page
    size, entry id) are integers of [Z]; the product of two of them is the
    product of doubles, [Js.mul], rounded to 53 bits;
  - a [URLSearchParams] object is the ordered list of its name/value pairs,
    duplicates included;
  - the React component is a record of its state cells; handlers and effects
    are programs of a small state monad over that record, which also logs
    every mutation of the search parameters and every navigation. *)

From Stdlib Require Import ZArith String Ascii List Bool Lia.
From stdpp Require Import base option list strings gmap.

Open Scope string_scope.
Open Scope Z_scope.

(** ** JavaScript values *)

Module Js.

(** An optional field: missing ([undefined]), [null], or holding a value. *)
Inductive nullable (A : Type) : Type :=
| Undefined : nullable A
| Null : nullable A
| Val (a : A) : nullable A.
Arguments Undefined {A}.
Arguments Null {A}.
Arguments Val {A} a.

(** [a ?? b]: the right operand only when the left is [undefined] or [null]. *)
Definition coalesce {A : Type} (a : nullable A) (b : A) : A :=
  match a with
  | Val x => x
  | Undefined | Null => b
  end.

Definition isNullish {A : Type} (a : nullable A) : bool :=
  match a with
  | Val _ => false
  | Undefined | Null => true
  end.

(** Truthiness of a string-valued optional field, as tested by [if (x)] and
    [!x]: [undefined], [null] and the empty string are falsy. *)
Definition truthy (a : nullable string) : bool :=
  match a with
  | Val s => negb (String.eqb s "")
  | Undefined | Null => false
  end.

(** String conversion of an optional string, as done by a template literal
    and by a computed property key. *)
Definition toString (a : nullable string) : string :=
  match a with
  | Undefined => "undefined"
  | Null => "null"
  | Val s => s
  end.

(** A boolean inside a template literal. *)
Definition ofBool (b : bool) : string := if b then "true" else "false".

Definition toLowerAscii (c : ascii) : ascii :=
  let n := N_of_ascii c in
  if ((65 <=? n) && (n <=? 90))%N then ascii_of_N (n + 32) else c.

Fixpoint toLowerCase (s : string) : string :=
  match s with
  | EmptyString => EmptyString
  | String c r => String (toLowerAscii c) (toLowerCase r)
  end.

(** The result of arithmetic on integers held in doubles: an integer or an
    infinity. Negative zero is not told apart from zero. *)
Inductive number : Type :=
| Int (z : Z)
| PosInfinity
| NegInfinity.

(** The magnitude [m] rounded to 53 significant bits, to the nearest such
    number and, half way between two, to the one with the even significand. *)
Definition roundMagnitude (m : Z) : Z :=
  if m <? 2 ^ 53 then m
  else
    let e := Z.log2 m - 52 in
    let q := m / 2 ^ e in
    let r := m mod 2 ^ e in
    let half := 2 ^ (e - 1) in
    let q' := if r <? half then q
              else if half <? r then q + 1
              else if Z.even q then q else q + 1 in
    q' * 2 ^ e.

(** The double nearest to the integer [z]; an infinity from 2^1024 on. *)
Definition ofZ (z : Z) : number :=
  let m := roundMagnitude (Z.abs z) in
  if 2 ^ 1024 <=? m then (if z <? 0 then NegInfinity else PosInfinity)
  else Int (Z.sgn z * m).

(** [a * b] on two integers held in doubles: the exact product, rounded. *)
Definition mul (a b : Z) : number := ofZ (a * b).

End Js.

Export Js (nullable, Undefined, Null, Val).

#[global] Instance nullable_eq_dec {A : Type} `{EqDecision A} :
  EqDecision (nullable A).
Proof. solve_decision. Defined.

(** ** URLSearchParams *)

Module URLSearchParams.

(** The list of name/value pairs of the query string, in order. *)
Abbreviation t := (list (string * string)).

(** [get(name)]: the value of the first pair called [name], else [null]. *)
Fixpoint get (sp : t) (name : string) : option string :=
  match sp with
  | [] => None
  | (k, v) :: rest => if decide (k = name) then Some v else get rest name
  end.

(** [getAll(name)]: the values of all pairs called [name], in order. *)
Fixpoint getAll (sp : t) (name : string) : list string :=
  match sp with
  | [] => []
  | (k, v) :: rest =>
      if decide (k = name) then v :: getAll rest name else getAll rest name
  end.

(** [delete(name)]: removes every pair called [name]. *)
Fixpoint delete (sp : t) (name : string) : t :=
  match sp with
  | [] => []
  | (k, v) :: rest =>
      if decide (k = name) then delete rest name else (k, v) :: delete rest name
  end.

(** [set(name, value)]: the first pair called [name] takes the value and the
    other pairs of that name are removed; with no such pair, a new one is
    appended. *)
Fixpoint set (sp : t) (name value : string) : t :=
  match sp with
  | [] => [(name, value)]
  | (k, v) :: rest =>
      if decide (k = name) then (name, value) :: delete rest name
      else (k, v) :: set rest name value
  end.

(** The pairs whose name is not [name]. *)
Definition others (sp : t) (name : string) : t :=
  filter (λ kv, kv.1 ≠ name) sp.

End URLSearchParams.

(** ** utils/string *)

Module StringUtils.

(** Modelled from the spec: [toBoolean] of [utils/string], which the page
    imports and whose definition lies outside the files embedded here. The
    specification describes it as a permissive string-to-boolean coercion:
    case-insensitive "true", "1" and "yes" give true, every other string
    gives false. *)
Definition toBoolean (value : string) : bool :=
  let v := Js.toLowerCase value in
  String.eqb v "true" || String.eqb v "1" || String.eqb v "yes".

End StringUtils.

(** Two characters that are equal or are the two cases of one ASCII letter. *)
Definition sameLetter (a b : ascii) : Prop :=
  a = b
  ∨ ((65 ≤ N_of_ascii a ≤ 90)%N ∧ N_of_ascii b = (N_of_ascii a + 32)%N)
  ∨ ((65 ≤ N_of_ascii b ≤ 90)%N ∧ N_of_ascii a = (N_of_ascii b + 32)%N).

(** Equality of strings up to the case of their ASCII letters. *)
Fixpoint equalsIgnoreCase (s w : string) : Prop :=
  match s, w with
  | EmptyString, EmptyString => True
  | String a s', String b w' => sameLetter a b ∧ equalsIgnoreCase s' w'
  | _, _ => False
  end.

(** The strings the specification calls true: "true", "1" and "yes" in any
    case. *)
Definition truthWord (s : string) : Prop :=
  equalsIgnoreCase s "true" ∨ equalsIgnoreCase s "1" ∨ equalsIgnoreCase s "yes".

(** ** Constants and the view mode *)

Definition DEFAULT_PAGE_SIZE : Z := 25.
Definition VIEW_PARAM : string := "useractivity".

Inductive ActivityView : Type :=
| All
| User
| System.

#[global] Instance ActivityView_eq_dec : EqDecision ActivityView.
Proof. solve_decision. Defined.

(** ** Records of the server API used by the page *)

(** The fields of an activity log entry the page reads. *)
Module ActivityLogEntry.

Record t : Type := {
  Id : nullable Z;
  UserId : nullable string;
  ItemId : nullable string
}.

End ActivityLogEntry.

(** The fields of a user record the page reads. *)
Module UserDto.

Record t : Type := {
  Id : nullable string;
  Name : nullable string
}.

End UserDto.

(** [row.Id ?? -1] *)
Definition getRowId (row : ActivityLogEntry.t) : Z :=
  Js.coalesce (ActivityLogEntry.Id row) (-1).

(** ** The component state and its hooks *)

Record PaginationModel : Type := {
  page : Z;
  pageSize : Z
}.

(** What the component does to the URL: the two in-place edits of the
    [URLSearchParams] object, and the navigation of [setSearchParams]. *)
Inductive UrlEvent : Type :=
| SearchParamsDelete (name : string)
| SearchParamsSet (name value : string)
| Navigate (query : URLSearchParams.t).

Record Component : Type := {
  searchParams : URLSearchParams.t;
  activityView : ActivityView;
  paginationModel : PaginationModel;
  urlLog : list UrlEvent
}.

(** Programs over the component state. *)
Definition Hook (A : Type) : Type := Component → A * Component.

Definition hret {A : Type} (a : A) : Hook A := λ st, (a, st).

Definition hbind {A B : Type} (m : Hook A) (f : A → Hook B) : Hook B :=
  λ st, let '(a, st') := m st in f a st'.

Declare Scope hook_scope.
Delimit Scope hook_scope with hook.
Bind Scope hook_scope with Hook.
Notation "'let*' x := m 'in' k" := (hbind m (λ x, k))
  (at level 10, x name, m at level 100, k at level 200) : hook_scope.

Definition exec {A : Type} (m : Hook A) (st : Component) : Component := (m st).2.

Definition readSearchParams : Hook URLSearchParams.t :=
  λ st, (searchParams st, st).

Definition readActivityView : Hook ActivityView :=
  λ st, (activityView st, st).

Definition setActivityView (view : ActivityView) : Hook unit :=
  λ st, (tt, {| searchParams := searchParams st;
                activityView := view;
                paginationModel := paginationModel st;
                urlLog := urlLog st |}).

Definition setPaginationModel (model : PaginationModel) : Hook unit :=
  λ st, (tt, {| searchParams := searchParams st;
                activityView := activityView st;
                paginationModel := model;
                urlLog := urlLog st |}).

(** [searchParams.delete(name)], in place. *)
Definition searchParamsDelete (name : string) : Hook unit :=
  λ st, (tt, {| searchParams := URLSearchParams.delete (searchParams st) name;
                activityView := activityView st;
                paginationModel := paginationModel st;
                urlLog := urlLog st ++ [SearchParamsDelete name] |}).

(** [searchParams.set(name, value)], in place. *)
Definition searchParamsSet (name value : string) : Hook unit :=
  λ st, (tt, {| searchParams := URLSearchParams.set (searchParams st) name value;
                activityView := activityView st;
                paginationModel := paginationModel st;
                urlLog := urlLog st ++ [SearchParamsSet name value] |}).

(** [setSearchParams(next)]: navigates to the query [next], which is what the
    hook hands out from then on. *)
Definition setSearchParams (next : URLSearchParams.t) : Hook unit :=
  λ st, (tt, {| searchParams := next;
                activityView := activityView st;
                paginationModel := paginationModel st;
                urlLog := urlLog st ++ [Navigate next] |}).

Definition isNavigate (e : UrlEvent) : bool :=
  match e with
  | Navigate _ => true
  | SearchParamsDelete _ | SearchParamsSet _ _ => false
  end.

Definition isEdit (e : UrlEvent) : bool := negb (isNavigate e).

(** The events a program adds to the log when run from [st]. *)
Definition performed {A : Type} (m : Hook A) (st : Component) : list UrlEvent :=
  drop (length (urlLog st)) (urlLog (exec m st)).

Definition navigations {A : Type} (m : Hook A) (st : Component) : nat :=
  length (filter isNavigate (performed m st)).

Definition edits {A : Type} (m : Hook A) (st : Component) : nat :=
  length (filter isEdit (performed m st)).

Section Activity.

(** [toBoolean] of [utils/string], the coercion the decoder calls. *)
Variable toBoolean : string → bool.

(** The view mode a value of the query parameter stands for; [None] is the
    [null] that [get] returns for a missing parameter. *)
Definition getActivityView (param : option string) : ActivityView :=
  match param with
  | None => All
  | Some s => if toBoolean s then User else System
  end.

(** The state of a freshly mounted page opened at the query [query]. *)
Definition mount (query : URLSearchParams.t) : Component :=
  {| searchParams := query;
     activityView := getActivityView (URLSearchParams.get query VIEW_PARAM);
     paginationModel := {| page := 0; pageSize := DEFAULT_PAGE_SIZE |};
     urlLog := [] |}.

(** The change handler of the toggle group; [None] is the [null] it is
    called with when the selection is cleared. Its event argument is unused. *)
Definition onViewChange (newView : option ActivityView) : Hook unit :=
  match newView with
  | Some view => setActivityView view
  | None => hret tt
  end.

(** The effect that keeps the URL in step with the view mode. *)
Definition syncViewParam : Hook unit :=
  (let* sp := readSearchParams in
   let* view := readActivityView in
   let currentViewParam := getActivityView (URLSearchParams.get sp VIEW_PARAM) in
   if decide (currentViewParam ≠ view) then
     let* _ := (if decide (view = All) then searchParamsDelete VIEW_PARAM
                else searchParamsSet VIEW_PARAM
                       (Js.ofBool (bool_decide (view = User)))) in
     let* mutated := readSearchParams in
     setSearchParams mutated
   else hret tt)%hook.

(** A selection in the toggle group, followed by the effect of the render it
    causes. *)
Definition viewChange (newView : ActivityView) : Hook unit :=
  (let* _ := onViewChange (Some newView) in syncViewParam)%hook.

End Activity.

(** ** The user directory *)

(** The memoised [users] record: a fold over the fetched users that skips
    those whose [Id] is falsy and otherwise copies the accumulator with the
    user stored under its [Id]. *)
Definition users (usersData : option (list UserDto.t)) : gmap string UserDto.t :=
  match usersData with
  | None => ∅
  | Some data =>
      foldl (λ acc user,
               let userId := UserDto.Id user in
               if negb (Js.truthy userId) then acc
               else <[Js.toString userId := user]> acc)
            ∅ data
  end.

(** The property names every plain object inherits from [Object.prototype]. *)
Definition objectPrototypeKeys : list string :=
  [ "constructor"; "__proto__"; "hasOwnProperty"; "isPrototypeOf";
    "propertyIsEnumerable"; "toLocaleString"; "toString"; "valueOf";
    "__defineGetter__"; "__defineSetter__"; "__lookupGetter__";
    "__lookupSetter__" ].

(** What [users[key]] evaluates to: a stored user, a member inherited from
    [Object.prototype], or [undefined]. *)
Inductive Member : Type :=
| OwnUser (user : UserDto.t)
| Inherited (name : string)
| Missing.

Definition usersGet (record : gmap string UserDto.t) (key : nullable string) : Member :=
  let k := Js.toString key in
  match record !! k with
  | Some user => OwnUser user
  | None => if bool_decide (k ∈ objectPrototypeKeys) then Inherited k else Missing
  end.

(** The outcome of an expression that may throw. *)
Inductive Outcome (A : Type) : Type :=
| Returns (a : A)
| ThrowsTypeError.
Arguments Returns {A} a.
Arguments ThrowsTypeError {A}.

(** [m.Name]: throws on [undefined]; the inherited members have no [Name]. *)
Definition getName (m : Member) : Outcome (nullable string) :=
  match m with
  | OwnUser user => Returns (UserDto.Name user)
  | Inherited _ => Returns Undefined
  | Missing => ThrowsTypeError
  end.

(** [m?.Name] *)
Definition getNameOptional (m : Member) : Outcome (nullable string) :=
  match m with
  | Missing => Returns Undefined
  | OwnUser _ | Inherited _ => getName m
  end.

(** [valueGetter] of the user column. *)
Definition userValueGetter (record : gmap string UserDto.t)
    (row : ActivityLogEntry.t) : Outcome (nullable string) :=
  getNameOptional (usersGet record (ActivityLogEntry.UserId row)).

(** The [title] of the user cell: [users[row.UserId]?.Name ?? undefined]. *)
Definition userCellTitle (record : gmap string UserDto.t)
    (row : ActivityLogEntry.t) : Outcome (nullable string) :=
  match getNameOptional (usersGet record (ActivityLogEntry.UserId row)) with
  | Returns name => Returns (if Js.isNullish name then Undefined else name)
  | ThrowsTypeError => ThrowsTypeError
  end.


(** ** Fetch parameters *)

Record ActivityParams : Type := {
  startIndex : Js.number;
  limit : Z;
  hasUserId : nullable bool
}.

Definition activityParams (st : Component) : ActivityParams :=
  {| startIndex := Js.mul (page (paginationModel st)) (pageSize (paginationModel st));
     limit := pageSize (paginationModel st);
     hasUserId := if decide (activityView st ≠ All)
                  then Val (bool_decide (activityView st = User))
                  else Undefined |}.

(** ** Columns and row actions *)

(** A column definition: its field, the key of its translated header, its
    width and its type. *)
Record GridColDef : Type := {
  field : string;
  headerName : option string;
  width : Z;
  type : option string
}.

Definition userColDef (view : ActivityView) : list GridColDef :=
  if decide (view ≠ System) then
    [ {| field := "User"; headerName := Some "LabelUser"; width := 60; type := None |} ]
  else [].

Definition columns (view : ActivityView) : list GridColDef :=
  [ {| field := "Date"; headerName := Some "LabelDate"; width := 90; type := Some "date" |};
    {| field := "Time"; headerName := Some "LabelTime"; width := 100; type := Some "dateTime" |};
    {| field := "Severity"; headerName := Some "LabelLevel"; width := 110; type := None |} ]
  ++ userColDef view ++
  [ {| field := "Name"; headerName := Some "LabelName"; width := 300; type := None |};
    {| field := "Overview"; headerName := Some "LabelOverview"; width := 200; type := None |};
    {| field := "Type"; headerName := Some "LabelType"; width := 180; type := None |};
    {| field := "actions"; headerName := None; width := 50; type := Some "actions" |} ].

(** A link offered among the actions of a row. *)
Record GridActionsCellLink : Type := {
  label : string;
  title : string;
  to : string
}.

Definition getActions (row : ActivityLogEntry.t) : list GridActionsCellLink :=
  let actions := [] in
  if Js.truthy (ActivityLogEntry.ItemId row) then
    actions ++
    [ {| label := "LabelMediaDetails";
         title := "LabelMediaDetails";
         to := "/details?id=" +:+ Js.toString (ActivityLogEntry.ItemId row) |} ]
  else actions.

(** ** The overview column *)

(** The two text fields of an activity log entry the overview column reads. *)
Module OverviewFields.

Record t : Type := {
  ShortOverview : nullable string;
  Overview : nullable string
}.

End OverviewFields.

(** [a ?? b] where [b] may be missing as well. *)
Definition nullishOr {A : Type} (a b : nullable A) : nullable A :=
  match a with
  | Val x => Val x
  | Undefined | Null => b
  end.

(** [valueGetter] of the overview column: [row.ShortOverview ?? row.Overview]. *)
Definition overviewValueGetter (row : OverviewFields.t) : nullable string :=
  nullishOr (OverviewFields.ShortOverview row) (OverviewFields.Overview row).

(** ** The page in use *)

(** What the user does on the page: a click in the toggle group, which calls
    [onViewChange], or a change of page or page size in the grid, which calls
    [setPaginationModel]. *)
Inductive Action : Type :=
| SelectView (newView : option ActivityView)
| ChangePagination (model : PaginationModel).

Definition readUrlLog : Hook (list UrlEvent) := λ st, (urlLog st, st).

Section Session.

Variable toBoolean : string → bool.

(** The runs of the effect after a render. A run that navigates hands the
    component a new [searchParams], which is a dependency of the effect, so
    the effect runs again; a run that does not navigate ends the series. The
    result is [false] when [fuel] runs are not enough to end it. *)
Fixpoint settle (fuel : nat) : Hook bool :=
  match fuel with
  | O => hret false
  | S fuel' =>
      (let* before := readUrlLog in
       let* _ := syncViewParam toBoolean in
       let* after := readUrlLog in
       if decide (length after = length before) then hret true
       else settle fuel')%hook
  end.

(** One action and the renders it causes. A new pagination model changes no
    dependency of the effect, which is not run; a selection runs it when the
    view mode has changed. *)
Definition dispatch (fuel : nat) (action : Action) : Hook bool :=
  match action with
  | ChangePagination model =>
      (let* _ := setPaginationModel model in hret true)%hook
  | SelectView newView =>
      (let* old := readActivityView in
       let* _ := onViewChange newView in
       let* new := readActivityView in
       if decide (new = old) then hret true else settle fuel)%hook
  end.

Fixpoint interact (fuel : nat) (actions : list Action) : Hook bool :=
  match actions with
  | [] => hret true
  | action :: rest =>
      (let* settled := dispatch fuel action in
       let* settled' := interact fuel rest in
       hret (settled && settled'))%hook
  end.

(** A visit of the page: opened at [query], where the effect runs for the
    first time, then used through [actions]. *)
Definition session (fuel : nat) (query : URLSearchParams.t)
    (actions : list Action) : bool * Component :=
  (let* settled := settle fuel in
   let* settled' := interact fuel actions in
   hret (settled && settled'))%hook (mount toBoolean query).

End Session.

(** The view mode after [actions], started in the mode [view]. *)
Fixpoint lastView (view : ActivityView) (actions : list Action) : ActivityView :=
  match actions with
  | [] => view
  | SelectView (Some view') :: rest => lastView view' rest
  | SelectView None :: rest | ChangePagination _ :: rest => lastView view rest
  end.

(** The pagination model after [actions], started with [model]. *)
Fixpoint lastPagination (model : PaginationModel) (actions : list Action) : PaginationModel :=
  match actions with
  | [] => model
  | ChangePagination model' :: rest => lastPagination model' rest
  | SelectView _ :: rest => lastPagination model rest
  end.

(** The number of selections in [actions] that change the view mode, started
    in the mode [view]. *)
Fixpoint viewChanges (view : ActivityView) (actions : list Action) : nat :=
  match actions with
  | [] => 0
  | SelectView (Some view') :: rest =>
      ((if decide (view' = view) then 0 else 1) + viewChanges view' rest)%nat
  | SelectView None :: rest | ChangePagination _ :: rest => viewChanges view rest
  end.

(** * Properties *)

(** ** Lower case and case-insensitive equality *)

Lemma toLowerAscii_sameLetter (a b : ascii) :
  Js.toLowerAscii b = b →
  Js.toLowerAscii a = b ↔ sameLetter a b.
Proof.
  unfold Js.toLowerAscii, sameLetter. intros Hb.
  pose proof (N_ascii_bounded a) as Ha'. pose proof (N_ascii_bounded b) as Hb'.
  destruct ((65 <=? N_of_ascii a) && (N_of_ascii a <=? 90))%N eqn:Ea.
  - apply andb_true_iff in Ea as [E1 E2].
    apply N.leb_le in E1, E2. split.
    + intros <-. right; left. split; [lia|].
      rewrite N_ascii_embedding; lia.
    + intros [-> | [[_ E] | [[E3 E4] E]]].
      * assert (((65 <=? N_of_ascii b) && (N_of_ascii b <=? 90))%N = true) as Eb.
        { apply andb_true_iff; split; apply N.leb_le; lia. }
        rewrite Eb in Hb. exact Hb.
      * rewrite <- E. apply ascii_N_embedding.
      * lia.
  - split.
    + intros ->. by left.
    + intros [-> | [[E3 E] | [[E3 E4] E]]]; [done| |].
      * apply andb_false_iff in Ea as [E1 | E1]; apply N.leb_gt in E1; lia.
      * assert (((65 <=? N_of_ascii b) && (N_of_ascii b <=? 90))%N = true) as Eb.
        { apply andb_true_iff; split; apply N.leb_le; lia. }
        rewrite Eb in Hb.
        apply (f_equal N_of_ascii) in Hb.
        rewrite N_ascii_embedding in Hb; lia.
Qed.

Lemma toLowerCase_equalsIgnoreCase (s w : string) :
  Js.toLowerCase w = w →
  Js.toLowerCase s = w ↔ equalsIgnoreCase s w.
Proof.
  revert w. induction s as [|a s IH]; intros [|b w] Hw; simpl in *.
  - done.
  - split; [intros E; discriminate E | contradiction].
  - split; [intros E; discriminate E | contradiction].
  - injection Hw as Hb Hw.
    rewrite <- (toLowerAscii_sameLetter a b Hb), <- (IH w Hw).
    split.
    + intros E. injection E as E1 E2. by split.
    + intros [E1 E2]. by rewrite E1, E2.
Qed.

Lemma toBoolean_truthWord (s : string) :
  StringUtils.toBoolean s = true ↔ truthWord s.
Proof.
  unfold StringUtils.toBoolean, truthWord.
  rewrite !orb_true_iff, !String.eqb_eq.
  rewrite <- !toLowerCase_equalsIgnoreCase by reflexivity. tauto.
Qed.

Example toBoolean_TRUE : StringUtils.toBoolean "TRUE" = true.
Proof. reflexivity. Qed.

Example toBoolean_Yes : StringUtils.toBoolean "Yes" = true.
Proof. reflexivity. Qed.

Example toBoolean_1 : StringUtils.toBoolean "1" = true.
Proof. reflexivity. Qed.

Example toBoolean_false : StringUtils.toBoolean "false" = false.
Proof. reflexivity. Qed.

Example toBoolean_on : StringUtils.toBoolean "on" = false.
Proof. reflexivity. Qed.

Example toBoolean_empty : StringUtils.toBoolean "" = false.
Proof. reflexivity. Qed.

(** ** The decoder *)

(** C1. The decoder maps a missing parameter to All; on a present parameter
    it yields User exactly for the strings that are "true", "1" or "yes" up
    to case, and System exactly for all other strings (with the coercion of
    [utils/string] as the specification describes it). *)
Theorem getActivityView_decodes :
  getActivityView StringUtils.toBoolean None = All
  ∧ (∀ s, getActivityView StringUtils.toBoolean (Some s) = User ↔ truthWord s)
  ∧ (∀ s, getActivityView StringUtils.toBoolean (Some s) = System ↔ ¬ truthWord s)
  ∧ (∀ s, getActivityView StringUtils.toBoolean (Some s) ≠ All).
Proof.
  assert (∀ s, getActivityView StringUtils.toBoolean (Some s) =
               if StringUtils.toBoolean s then User else System) as Hdef
    by reflexivity.
  split; [reflexivity|].
  split; [|split]; intros s; rewrite Hdef;
    pose proof (toBoolean_truthWord s) as H;
    destruct (StringUtils.toBoolean s).
  - split; [intros _; by apply H | done].
  - split; [done | intros Hw; apply H in Hw; done].
  - split; [done | intros Hn; exfalso; apply Hn; by apply H].
  - split; [intros _ Hw; apply H in Hw; done | done].
  - done.
  - done.
Qed.

(** ** Search parameters *)

Lemma usp_get_delete (sp : URLSearchParams.t) (name : string) :
  URLSearchParams.get (URLSearchParams.delete sp name) name = None.
Proof.
  induction sp as [|[k v] sp IH]; simpl; [done|].
  case_decide; simpl; [done|]. by rewrite decide_False.
Qed.

Lemma usp_get_set (sp : URLSearchParams.t) (name value : string) :
  URLSearchParams.get (URLSearchParams.set sp name value) name = Some value.
Proof.
  induction sp as [|[k v] sp IH]; simpl.
  - by rewrite decide_True.
  - case_decide; simpl; [by rewrite decide_True | by rewrite decide_False].
Qed.

Lemma usp_delete_absent (sp : URLSearchParams.t) (name : string) :
  URLSearchParams.get sp name = None → URLSearchParams.delete sp name = sp.
Proof.
  induction sp as [|[k v] sp IH]; simpl; [done|].
  case_decide; [done|]. intros Hget. by rewrite IH.
Qed.

Lemma usp_others_delete (sp : URLSearchParams.t) (name : string) :
  URLSearchParams.others (URLSearchParams.delete sp name) name
  = URLSearchParams.others sp name.
Proof.
  unfold URLSearchParams.others.
  induction sp as [|[k v] sp IH];
    cbn [URLSearchParams.delete URLSearchParams.set]; [done|].
  case_decide as Hk.
  - rewrite filter_cons_False by (simpl; tauto). exact IH.
  - rewrite !filter_cons_True by done. by rewrite IH.
Qed.

Lemma usp_others_set (sp : URLSearchParams.t) (name value : string) :
  URLSearchParams.others (URLSearchParams.set sp name value) name
  = URLSearchParams.others sp name.
Proof.
  induction sp as [|[k v] sp IH]; cbn [URLSearchParams.set].
  - unfold URLSearchParams.others.
    by rewrite filter_cons_False by (simpl; tauto).
  - case_decide as Hk.
    + unfold URLSearchParams.others.
      rewrite !filter_cons_False by (simpl; tauto).
      apply usp_others_delete.
    + unfold URLSearchParams.others in *.
      rewrite !filter_cons_True by done. by rewrite IH.
Qed.

Lemma usp_get_others (sp : URLSearchParams.t) (name other : string) :
  other ≠ name →
  URLSearchParams.get (URLSearchParams.others sp name) other
  = URLSearchParams.get sp other.
Proof.
  intros Hne. unfold URLSearchParams.others.
  induction sp as [|[k v] sp IH];
    cbn [URLSearchParams.delete URLSearchParams.set]; [done|].
  destruct (decide (k = name)) as [Hk|Hk].
  - rewrite filter_cons_False by (simpl; tauto).
    cbn [URLSearchParams.get]. rewrite decide_False by congruence. exact IH.
  - rewrite filter_cons_True by done. cbn [URLSearchParams.get].
    case_decide; [done | exact IH].
Qed.

Lemma usp_getAll_others (sp : URLSearchParams.t) (name other : string) :
  other ≠ name →
  URLSearchParams.getAll (URLSearchParams.others sp name) other
  = URLSearchParams.getAll sp other.
Proof.
  intros Hne. unfold URLSearchParams.others.
  induction sp as [|[k v] sp IH];
    cbn [URLSearchParams.delete URLSearchParams.set]; [done|].
  destruct (decide (k = name)) as [Hk|Hk].
  - rewrite filter_cons_False by (simpl; tauto).
    cbn [URLSearchParams.getAll]. rewrite decide_False by congruence. exact IH.
  - rewrite filter_cons_True by done. cbn [URLSearchParams.getAll].
    case_decide; [by rewrite IH | exact IH].
Qed.

(** ** The view mode and the URL *)

Section Synchronisation.

Variable toBoolean : string → bool.

Local Abbreviation decode sp :=
  (getActivityView toBoolean (URLSearchParams.get sp VIEW_PARAM)).

(** What the effect writes into the search parameters for a view mode. *)
Local Abbreviation written view sp :=
  (if decide (view = All) then URLSearchParams.delete sp VIEW_PARAM
   else URLSearchParams.set sp VIEW_PARAM (Js.ofBool (bool_decide (view = User)))).

Local Abbreviation edit view :=
  (if decide (view = All) then SearchParamsDelete VIEW_PARAM
   else SearchParamsSet VIEW_PARAM (Js.ofBool (bool_decide (view = User)))).

Lemma exec_onViewChange (st : Component) (newView : option ActivityView) :
  exec (onViewChange newView) st =
  {| searchParams := searchParams st;
     activityView := default (activityView st) newView;
     paginationModel := paginationModel st;
     urlLog := urlLog st |}.
Proof. destruct newView, st; reflexivity. Qed.

Lemma exec_syncViewParam_consistent (st : Component) :
  decode (searchParams st) = activityView st →
  exec (syncViewParam toBoolean) st = st.
Proof.
  intros Heq. unfold exec, syncViewParam, hbind, readSearchParams, readActivityView.
  simpl. by rewrite decide_False by tauto.
Qed.

Lemma exec_syncViewParam_inconsistent (st : Component) :
  decode (searchParams st) ≠ activityView st →
  exec (syncViewParam toBoolean) st =
  {| searchParams := written (activityView st) (searchParams st);
     activityView := activityView st;
     paginationModel := paginationModel st;
     urlLog := (urlLog st ++ [edit (activityView st);
                              Navigate (written (activityView st) (searchParams st))])%list |}.
Proof.
  intros Hne. unfold exec, syncViewParam, hbind, readSearchParams, readActivityView.
  simpl. rewrite decide_True by done.
  destruct st as [sp view pm log]; simpl in *.
  case_decide; simpl; by rewrite <- app_assoc.
Qed.

Lemma performed_app {A : Type} (m : Hook A) (st : Component) (events : list UrlEvent) :
  urlLog (exec m st) = (urlLog st ++ events)%list → performed m st = events.
Proof. unfold performed. intros ->. by rewrite drop_app_length. Qed.

Lemma performed_syncViewParam (st : Component) :
  performed (syncViewParam toBoolean) st =
  if decide (decode (searchParams st) = activityView st) then []
  else [edit (activityView st);
        Navigate (written (activityView st) (searchParams st))].
Proof.
  apply performed_app. case_decide as Hc.
  - rewrite exec_syncViewParam_consistent by done. by rewrite app_nil_r.
  - by rewrite exec_syncViewParam_inconsistent by done.
Qed.

Lemma exec_viewChange (st : Component) (newView : ActivityView) :
  exec (viewChange toBoolean newView) st =
  exec (syncViewParam toBoolean) (exec (onViewChange (Some newView)) st).
Proof. reflexivity. Qed.

Lemma decode_written (view : ActivityView) (sp : URLSearchParams.t) :
  toBoolean "true" = true → toBoolean "false" = false →
  decode (written view sp) = view.
Proof.
  intros Ht Hf. destruct view; simpl.
  - by rewrite usp_get_delete.
  - rewrite usp_get_set. simpl. by rewrite Ht.
  - rewrite usp_get_set. simpl. by rewrite Hf.
Qed.

(** C2. Provided the coercion reads "true" as true and "false" as false,
    after a change to any view mode the URL decodes to that mode; when the
    effect writes, the parameter is gone for All and holds the literal
    "true" for User and "false" for System; a missing parameter decodes to
    All. *)
Theorem viewChange_roundtrip
    (Htrue : toBoolean "true" = true) (Hfalse : toBoolean "false" = false)
    (st : Component) (mode : ActivityView) :
  let st' := exec (viewChange toBoolean mode) st in
  decode (searchParams st') = mode
  ∧ URLSearchParams.get (searchParams st') VIEW_PARAM =
      (if decide (decode (searchParams st) = mode)
       then URLSearchParams.get (searchParams st) VIEW_PARAM
       else match mode with
            | All => None
            | User => Some "true"
            | System => Some "false"
            end)
  ∧ getActivityView toBoolean None = All.
Proof.
  simpl. rewrite exec_viewChange, exec_onViewChange. simpl.
  set (st1 := {| searchParams := searchParams st; activityView := mode;
                 paginationModel := paginationModel st; urlLog := urlLog st |}).
  case_decide as Hc.
  - rewrite (exec_syncViewParam_consistent st1) by exact Hc. simpl. done.
  - rewrite (exec_syncViewParam_inconsistent st1) by exact Hc. simpl.
    split; [by apply decode_written|]. split; [|done].
    destruct mode; simpl;
      [apply usp_get_delete | apply usp_get_set | apply usp_get_set].
Qed.

(** C3. A change of view mode makes the effect navigate exactly once, after
    exactly one in-place edit of the search parameters, unless the mode
    decoded from the current URL is already the new mode: then it performs
    nothing and the search parameters are left as they were. *)
Theorem viewChange_url_mutations (st : Component) (mode : ActivityView) :
  let st' := exec (viewChange toBoolean mode) st in
  urlLog st' = (urlLog st ++ performed (viewChange toBoolean mode) st)%list
  ∧ navigations (viewChange toBoolean mode) st =
      (if decide (decode (searchParams st) = mode) then 0 else 1)%nat
  ∧ edits (viewChange toBoolean mode) st =
      (if decide (decode (searchParams st) = mode) then 0 else 1)%nat
  ∧ (if decide (decode (searchParams st) = mode)
     then searchParams st' = searchParams st ∧ urlLog st' = urlLog st
     else last (urlLog st') = Some (Navigate (searchParams st'))).
Proof.
  cbv zeta. unfold navigations, edits.
  assert (performed (viewChange toBoolean mode) st
          = performed (syncViewParam toBoolean)
              (exec (onViewChange (Some mode)) st)) as ->.
  { unfold performed. by rewrite exec_viewChange, !exec_onViewChange. }
  rewrite performed_syncViewParam, exec_viewChange, exec_onViewChange.
  cbn [default from_option searchParams activityView urlLog]. unfold id.
  match goal with |- context [exec _ ?s] => set (st1 := s) end.
  destruct (decide (decode (searchParams st) = mode)) as [Hc|Hc].
  - rewrite (exec_syncViewParam_consistent st1) by exact Hc.
    rewrite app_nil_r. done.
  - rewrite (exec_syncViewParam_inconsistent st1) by exact Hc.
    subst st1. cbn [searchParams activityView urlLog].
    split; [done|]. split; [by destruct mode|]. split; [by destruct mode|].
    by rewrite last_app.
Qed.

(** C7. The handler of the toggle group writes the view mode only: page
    index, page size, search parameters and URL log are as before, also
    after the effect that follows has run. *)
Theorem onViewChange_keeps_pagination (st : Component) (newView : option ActivityView) :
  let st' := exec (onViewChange newView) st in
  paginationModel st' = paginationModel st
  ∧ page (paginationModel st') = page (paginationModel st)
  ∧ pageSize (paginationModel st') = pageSize (paginationModel st)
  ∧ searchParams st' = searchParams st
  ∧ urlLog st' = urlLog st
  ∧ activityView st' = default (activityView st) newView
  ∧ paginationModel (exec (syncViewParam toBoolean) st') = paginationModel st.
Proof.
  simpl. rewrite exec_onViewChange. simpl. repeat split.
  match goal with |- paginationModel (exec _ ?s) = _ => set (st1 := s) end.
  destruct (decide (decode (searchParams st1) = activityView st1)) as [Hc|Hc].
  - by rewrite exec_syncViewParam_consistent.
  - by rewrite exec_syncViewParam_inconsistent.
Qed.

(** C10. Whatever the query and the new view mode, the parameters whose name
    is not [useractivity] are the same after the synchronisation as before:
    same pairs in the same order, hence the same values under every other
    name. *)
Theorem viewChange_keeps_other_params
    (st : Component) (mode : ActivityView) (name : string)
    (Hname : name ≠ VIEW_PARAM) :
  let st' := exec (viewChange toBoolean mode) st in
  URLSearchParams.others (searchParams st') VIEW_PARAM
    = URLSearchParams.others (searchParams st) VIEW_PARAM
  ∧ URLSearchParams.getAll (searchParams st') name
    = URLSearchParams.getAll (searchParams st) name
  ∧ URLSearchParams.get (searchParams st') name
    = URLSearchParams.get (searchParams st) name.
Proof.
  simpl.
  assert (URLSearchParams.others
            (searchParams (exec (viewChange toBoolean mode) st)) VIEW_PARAM
          = URLSearchParams.others (searchParams st) VIEW_PARAM) as Hothers.
  { rewrite exec_viewChange, exec_onViewChange.
    match goal with |- context [exec _ ?s] => set (st1 := s) end.
    destruct (decide (decode (searchParams st1) = activityView st1)) as [Hc|Hc].
    - by rewrite exec_syncViewParam_consistent.
    - rewrite exec_syncViewParam_inconsistent by done. simpl.
      case_decide; [apply usp_others_delete | apply usp_others_set]. }
  split; [exact Hothers|]. split.
  - rewrite <- (usp_getAll_others _ VIEW_PARAM name Hname), Hothers.
    by apply usp_getAll_others.
  - rewrite <- (usp_get_others _ VIEW_PARAM name Hname), Hothers.
    by apply usp_get_others.
Qed.

End Synchronisation.

(** C2 at the coercion of the specification: from a page opened at
    [?useractivity=false&page=2], selecting User. *)
Lemma viewChange_roundtrip_witness :
  StringUtils.toBoolean "true" = true
  ∧ StringUtils.toBoolean "false" = false
  ∧ getActivityView StringUtils.toBoolean
      (URLSearchParams.get
         (searchParams
            (exec (viewChange StringUtils.toBoolean User)
               (mount StringUtils.toBoolean
                  [("useractivity", "false"); ("page", "2")])))
         VIEW_PARAM) = User.
Proof.
  split; [reflexivity|]. split; [reflexivity|].
  apply (viewChange_roundtrip StringUtils.toBoolean eq_refl eq_refl
           (mount StringUtils.toBoolean [("useractivity", "false"); ("page", "2")])
           User).
Defined.

(** C10 at a concrete query: the [page] parameter survives the removal of a
    doubled [useractivity]. *)
Lemma viewChange_keeps_other_params_witness :
  "page" ≠ VIEW_PARAM
  ∧ URLSearchParams.get
      (searchParams
         (exec (viewChange StringUtils.toBoolean All)
            (mount StringUtils.toBoolean
               [("useractivity", "true"); ("page", "2"); ("useractivity", "x")])))
      "page"
    = URLSearchParams.get
        (searchParams
           (mount StringUtils.toBoolean
              [("useractivity", "true"); ("page", "2"); ("useractivity", "x")]))
        "page".
Proof.
  assert ("page" ≠ VIEW_PARAM) as Hname by (intros E; discriminate E).
  split; [exact Hname|].
  apply (viewChange_keeps_other_params StringUtils.toBoolean
           (mount StringUtils.toBoolean
              [("useractivity", "true"); ("page", "2"); ("useractivity", "x")])
           All "page" Hname).
Defined.

(** A second run of the effect, as caused by the navigation of the first,
    finds the URL consistent and performs nothing. *)
Lemma syncViewParam_settles (toBoolean : string → bool) (st : Component) :
  toBoolean "true" = true → toBoolean "false" = false →
  exec (syncViewParam toBoolean) (exec (syncViewParam toBoolean) st)
  = exec (syncViewParam toBoolean) st.
Proof.
  intros Ht Hf.
  destruct (decide (getActivityView toBoolean
                      (URLSearchParams.get (searchParams st) VIEW_PARAM)
                    = activityView st)) as [Hc|Hc].
  - rewrite (exec_syncViewParam_consistent toBoolean st Hc).
    by apply exec_syncViewParam_consistent.
  - rewrite (exec_syncViewParam_inconsistent toBoolean st Hc).
    apply exec_syncViewParam_consistent. simpl. by apply decode_written.
Qed.

(** A freshly mounted page is consistent with its URL: the first run of the
    effect performs nothing. *)
Lemma mount_consistent (toBoolean : string → bool) (query : URLSearchParams.t) :
  exec (syncViewParam toBoolean) (mount toBoolean query) = mount toBoolean query.
Proof. apply exec_syncViewParam_consistent. reflexivity. Qed.

Example viewChange_from_all :
  exec (viewChange StringUtils.toBoolean System)
       (mount StringUtils.toBoolean [("tab", "log")])
  = {| searchParams := [("tab", "log"); ("useractivity", "false")];
       activityView := System;
       paginationModel := {| page := 0; pageSize := 25 |};
       urlLog := [SearchParamsSet "useractivity" "false";
                  Navigate [("tab", "log"); ("useractivity", "false")]] |}.
Proof. reflexivity. Qed.

Example viewChange_to_all :
  exec (viewChange StringUtils.toBoolean All)
       (mount StringUtils.toBoolean
          [("useractivity", "true"); ("page", "2"); ("useractivity", "x")])
  = {| searchParams := [("page", "2")];
       activityView := All;
       paginationModel := {| page := 0; pageSize := 25 |};
       urlLog := [SearchParamsDelete "useractivity"; Navigate [("page", "2")]] |}.
Proof. reflexivity. Qed.

(** ** Row identity *)

(** C9. The row key is the entry's identifier when it has one, zero
    included, and -1 when the identifier is missing or null. *)
Theorem getRowId_sentinel (row : ActivityLogEntry.t) :
  (∀ id, ActivityLogEntry.Id row = Val id → getRowId row = id)
  ∧ (ActivityLogEntry.Id row = Undefined → getRowId row = -1)
  ∧ (ActivityLogEntry.Id row = Null → getRowId row = -1).
Proof.
  unfold getRowId. repeat split.
  - by intros id ->.
  - by intros ->.
  - by intros ->.
Qed.

Example getRowId_zero :
  getRowId {| ActivityLogEntry.Id := Val 0;
              ActivityLogEntry.UserId := Undefined;
              ActivityLogEntry.ItemId := Undefined |} = 0.
Proof. reflexivity. Qed.

(** ** Fetch parameters *)

Lemma roundMagnitude_exact (m : Z) : m ≤ 2 ^ 53 → Js.roundMagnitude m = m.
Proof.
  intros Hm. unfold Js.roundMagnitude.
  destruct (Z.ltb_spec m (2 ^ 53)) as [Hlt|Hge]; [done|].
  assert (m = 2 ^ 53) as -> by lia. by vm_compute.
Qed.

Lemma Js_mul_exact (a b : Z) : Z.abs (a * b) ≤ 2 ^ 53 → Js.mul a b = Js.Int (a * b).
Proof.
  intros Hbound. unfold Js.mul, Js.ofZ.
  rewrite roundMagnitude_exact by exact Hbound.
  assert (2 ^ 53 < 2 ^ 1024) as Hpow by (by apply Z.pow_lt_mono_r).
  destruct (Z.leb_spec (2 ^ 1024) (Z.abs (a * b))) as [Hle|Hlt]; [lia|].
  f_equal. lia.
Qed.

(** Beyond 2^53 the product of doubles is not always the product of the
    integers. *)
Example Js_mul_rounds :
  Js.mul 94906267 94906267 = Js.Int 9007199515875288
  ∧ 94906267 * 94906267 = 9007199515875289.
Proof. by vm_compute. Qed.

(** C4. The fetch parameters are the product of page index and page size as
    JavaScript computes it, which is their exact product as long as that is
    at most 2^53 in magnitude, the page size, and the user filter of the
    view mode: missing for All, true for User, false for System. On page 2
    of size 25 in mode User they are 50, 25 and true. *)
Theorem activityParams_derived (st : Component) :
  startIndex (activityParams st)
    = Js.mul (page (paginationModel st)) (pageSize (paginationModel st))
  ∧ (Z.abs (page (paginationModel st) * pageSize (paginationModel st)) ≤ 2 ^ 53 →
     startIndex (activityParams st)
     = Js.Int (page (paginationModel st) * pageSize (paginationModel st)))
  ∧ limit (activityParams st) = pageSize (paginationModel st)
  ∧ hasUserId (activityParams st)
    = match activityView st with
      | All => Undefined
      | User => Val true
      | System => Val false
      end
  ∧ activityParams
      {| searchParams := searchParams st;
         activityView := User;
         paginationModel := {| page := 2; pageSize := 25 |};
         urlLog := urlLog st |}
    = {| startIndex := Js.Int 50; limit := 25; hasUserId := Val true |}.
Proof.
  split; [done|]. split; [by apply Js_mul_exact|]. split; [done|].
  split; [|done].
  unfold activityParams. cbn [hasUserId]. by destruct (activityView st).
Qed.

(** ** Columns *)

(** C5. The column set has a column of field [User] exactly when the view
    mode is not System, and then it is the one column of [userColDef]. *)
Theorem user_column_iff (view : ActivityView) :
  ("User" ∈ field <$> columns view ↔ view ≠ System)
  ∧ (∀ col, col ∈ userColDef view → col ∈ columns view)
  ∧ length (columns view) = (if decide (view = System) then 7 else 8)%nat.
Proof.
  split; [|split].
  - destruct view; split; try done.
    + intros _. do 3 right. left.
    + intros _. do 3 right. left.
    + intros Hin. exfalso. revert Hin. simpl.
      rewrite !elem_of_cons, elem_of_nil. intros Hin.
      repeat (destruct Hin as [Hin|Hin]; [discriminate Hin|]). exact Hin.
  - intros col Hin. unfold columns.
    apply elem_of_app. right. apply elem_of_app. by left.
  - by destruct view.
Qed.

(** ** Row actions *)

Lemma getActions_cases (row : ActivityLogEntry.t) :
  getActions row =
  match ActivityLogEntry.ItemId row with
  | Val id =>
      if decide (id = "") then []
      else [ {| label := "LabelMediaDetails"; title := "LabelMediaDetails";
                to := "/details?id=" +:+ id |} ]
  | Undefined | Null => []
  end.
Proof.
  unfold getActions.
  destruct (ActivityLogEntry.ItemId row) as [| |item]; [done|done|].
  destruct (decide (item = "")) as [->|Hne]; [done|].
  unfold Js.truthy. apply String.eqb_neq in Hne. by rewrite Hne.
Qed.

(** C6. The actions of a row hold the media-details link to the detail page
    of an item exactly when that item is the row's non-empty item
    identifier; a row whose item identifier is missing, null or empty has no
    action, and no row has more than one. *)
Theorem getActions_media_details (row : ActivityLogEntry.t) :
  (∀ id, {| label := "LabelMediaDetails"; title := "LabelMediaDetails";
            to := "/details?id=" +:+ id |} ∈ getActions row
         ↔ ActivityLogEntry.ItemId row = Val id ∧ id ≠ "")
  ∧ (getActions row = [] ↔ ∀ id, ActivityLogEntry.ItemId row = Val id → id = "")
  ∧ (∀ action, action ∈ getActions row →
       ∃ id, action = {| label := "LabelMediaDetails"; title := "LabelMediaDetails";
                         to := "/details?id=" +:+ id |}
             ∧ ActivityLogEntry.ItemId row = Val id)
  ∧ (length (getActions row) ≤ 1)%nat.
Proof.
  rewrite getActions_cases.
  destruct (ActivityLogEntry.ItemId row) as [| |item].
  - split; [|split; [|split]].
    + intros id. split; [intros Hin; by apply elem_of_nil in Hin | by intros [? _]].
    + split; [intros _ id E; discriminate E | done].
    + intros action Hin. by apply elem_of_nil in Hin.
    + simpl. lia.
  - split; [|split; [|split]].
    + intros id. split; [intros Hin; by apply elem_of_nil in Hin | by intros [? _]].
    + split; [intros _ id E; discriminate E | done].
    + intros action Hin. by apply elem_of_nil in Hin.
    + simpl. lia.
  - destruct (decide (item = "")) as [->|Hne].
    + split; [|split; [|split]].
      * intros id. split; [intros Hin; by apply elem_of_nil in Hin|].
        intros [E Hid]. by injection E as <-.
      * split; [intros _ id E; by injection E as <- | done].
      * intros action Hin. by apply elem_of_nil in Hin.
      * simpl. lia.
    + split; [|split; [|split]].
      * intros id. rewrite list_elem_of_singleton. split.
        -- intros E. by simplify_eq/=.
        -- intros [E _]. by injection E as <-.
      * split; [intros E; discriminate E|].
        intros Hall. exfalso. by apply Hne, Hall.
      * intros action Hin. apply list_elem_of_singleton in Hin.
        exists item. by split.
      * simpl. lia.
Qed.

(** ** The user directory *)

Lemma users_lookup (data : list UserDto.t) (key : string) :
  users (Some data) !! key =
  if decide (key = "") then None
  else last (filter (λ user, UserDto.Id user = Val key) data).
Proof.
  unfold users. induction data as [|user data IH] using rev_ind.
  - simpl. rewrite lookup_empty. by case_decide.
  - rewrite foldl_app, filter_app, last_app. simpl.
    destruct (UserDto.Id user) as [| |s] eqn:Hid.
    + simpl. rewrite IH. rewrite filter_cons_False by (rewrite Hid; done). done.
    + simpl. rewrite IH. rewrite filter_cons_False by (rewrite Hid; done). done.
    + destruct (decide (s = "")) as [->|Hs].
      * simpl. rewrite IH. case_decide as Hk; [done|].
        rewrite filter_cons_False; [done|].
        rewrite Hid. intros E. by injection E as <-.
      * assert (Js.truthy (Val s) = true) as ->.
        { simpl. apply String.eqb_neq in Hs. by rewrite Hs. }
        simpl. destruct (decide (s = key)) as [->|Hne].
        -- rewrite lookup_insert_eq, decide_False by done.
           by rewrite filter_cons_True by done.
        -- rewrite lookup_insert_ne by done. rewrite IH.
           rewrite filter_cons_False; [done|].
           rewrite Hid. intros E. by injection E.
Qed.

Lemma users_lookup_Some (usersData : option (list UserDto.t))
    (key : string) (user : UserDto.t) :
  users usersData !! key = Some user →
  key ≠ "" ∧ UserDto.Id user = Val key
  ∧ ∃ data, usersData = Some data ∧ user ∈ data.
Proof.
  destruct usersData as [data|]; [|unfold users; by rewrite lookup_empty].
  rewrite users_lookup. case_decide as Hk; [done|]. intros Hlast.
  apply last_Some_elem_of in Hlast.
  apply list_elem_of_filter in Hlast as [Hid Hin]. eauto.
Qed.

Lemma users_lookup_is_Some (data : list UserDto.t) (key : string) (user : UserDto.t) :
  key ≠ "" → user ∈ data → UserDto.Id user = Val key →
  is_Some (users (Some data) !! key).
Proof.
  intros Hk Hin Hid. rewrite users_lookup, decide_False by done.
  assert (user ∈ filter (λ user, UserDto.Id user = Val key) data) as Hf
    by (by apply list_elem_of_filter).
  destruct (filter (λ user, UserDto.Id user = Val key) data) as [|u l] using rev_ind.
  - by apply elem_of_nil in Hf.
  - rewrite last_snoc. eauto.
Qed.

Lemma getNameOptional_miss (record : gmap string UserDto.t) (key : nullable string) :
  record !! Js.toString key = None →
  getNameOptional (usersGet record key) = Returns Undefined.
Proof. unfold usersGet. intros ->. by case_bool_decide. Qed.

Lemma getNameOptional_returns (record : gmap string UserDto.t) (key : nullable string) :
  getNameOptional (usersGet record key) ≠ ThrowsTypeError.
Proof.
  unfold usersGet. destruct (record !! Js.toString key); [done|].
  by case_bool_decide.
Qed.

(** C8. The directory has an entry under a key exactly when the key is not
    empty and is the identifier of a fetched user, and the entry is a
    fetched user with that identifier; users without identifier are not
    stored. A row whose user identifier is unknown to the directory, or
    empty, gets the undefined display name and cell title, and neither
    expression throws for any row. *)
Theorem users_directory (usersData : option (list UserDto.t)) :
  (∀ key, is_Some (users usersData !! key)
          ↔ key ≠ "" ∧ ∃ data user, usersData = Some data ∧ user ∈ data
                                     ∧ UserDto.Id user = Val key)
  ∧ (∀ key user, users usersData !! key = Some user →
       UserDto.Id user = Val key ∧ ∃ data, usersData = Some data ∧ user ∈ data)
  ∧ (∀ row,
       (∀ data user, usersData = Some data → user ∈ data →
          UserDto.Id user ≠ Val (Js.toString (ActivityLogEntry.UserId row))) →
       userValueGetter (users usersData) row = Returns Undefined
       ∧ userCellTitle (users usersData) row = Returns Undefined)
  ∧ (∀ row, ActivityLogEntry.UserId row = Val "" →
       userValueGetter (users usersData) row = Returns Undefined
       ∧ userCellTitle (users usersData) row = Returns Undefined)
  ∧ (∀ row, userValueGetter (users usersData) row ≠ ThrowsTypeError
            ∧ userCellTitle (users usersData) row ≠ ThrowsTypeError).
Proof.
  assert (∀ row, users usersData !! Js.toString (ActivityLogEntry.UserId row) = None →
            userValueGetter (users usersData) row = Returns Undefined
            ∧ userCellTitle (users usersData) row = Returns Undefined) as Hmiss.
  { intros row Hnone. unfold userValueGetter, userCellTitle.
    by rewrite getNameOptional_miss. }
  split; [|split; [|split; [|split]]].
  - intros key. split.
    + intros [user Hu]. apply users_lookup_Some in Hu as (Hk & Hid & data & -> & Hin).
      split; [done|]. by exists data, user.
    + intros (Hk & data & user & -> & Hin & Hid).
      by apply (users_lookup_is_Some data key user).
  - intros key user Hu. by apply users_lookup_Some in Hu as (_ & Hid & Hdata).
  - intros row Hunknown. apply Hmiss.
    destruct (users usersData !! Js.toString (ActivityLogEntry.UserId row))
      as [user|] eqn:Hu; [|done].
    apply users_lookup_Some in Hu as (_ & Hid & data & -> & Hin).
    by destruct (Hunknown data user eq_refl Hin).
  - intros row Hempty. apply Hmiss. rewrite Hempty. simpl.
    destruct (users usersData !! "") as [user|] eqn:Hu; [|done].
    by apply users_lookup_Some in Hu as (Hk & _).
  - intros row. unfold userValueGetter, userCellTitle.
    pose proof (getNameOptional_returns (users usersData)
                  (ActivityLogEntry.UserId row)) as Hret.
    by destruct (getNameOptional _).
Qed.

Example users_alice :
  let record := users (Some [ {| UserDto.Id := Val "u1"; UserDto.Name := Val "Alice" |};
                              {| UserDto.Id := Undefined; UserDto.Name := Val "Ghost" |};
                              {| UserDto.Id := Val ""; UserDto.Name := Val "Blank" |} ]) in
  userValueGetter record
    {| ActivityLogEntry.Id := Val 1;
       ActivityLogEntry.UserId := Val "u1";
       ActivityLogEntry.ItemId := Val "m1" |} = Returns (Val "Alice")
  ∧ userValueGetter record
      {| ActivityLogEntry.Id := Val 2;
         ActivityLogEntry.UserId := Undefined;
         ActivityLogEntry.ItemId := Null |} = Returns Undefined
  ∧ userValueGetter record
      {| ActivityLogEntry.Id := Val 3;
         ActivityLogEntry.UserId := Val "constructor";
         ActivityLogEntry.ItemId := Null |} = Returns Undefined
  ∧ size record = 1%nat.
Proof. vm_compute. done. Qed.

Example getActions_m1 :
  getActions {| ActivityLogEntry.Id := Val 1;
                ActivityLogEntry.UserId := Val "u1";
                ActivityLogEntry.ItemId := Val "m1" |}
  = [ {| label := "LabelMediaDetails"; title := "LabelMediaDetails";
         to := "/details?id=m1" |} ].
Proof. reflexivity. Qed.

Example page_kept_on_view_change :
  let st := {| searchParams := [];
               activityView := All;
               paginationModel := {| page := 3; pageSize := 25 |};
               urlLog := [] |} in
  activityParams (exec (viewChange StringUtils.toBoolean System) st)
  = {| startIndex := Js.Int 75; limit := 25; hasUserId := Val false |}.
Proof. reflexivity. Qed.

(** ** The page in use *)

Lemma hook_unit_run (m : Hook unit) (st : Component) : m st = (tt, exec m st).
Proof. unfold exec. by destruct (m st) as [[] st']. Qed.

Lemma usp_getAll_delete (sp : URLSearchParams.t) (name : string) :
  URLSearchParams.getAll (URLSearchParams.delete sp name) name = [].
Proof.
  induction sp as [|[k v] sp IH]; simpl; [done|].
  case_decide; simpl; [done|]. by rewrite decide_False.
Qed.

Lemma usp_getAll_set (sp : URLSearchParams.t) (name value : string) :
  URLSearchParams.getAll (URLSearchParams.set sp name value) name = [value].
Proof.
  induction sp as [|[k v] sp IH]; simpl.
  - by rewrite decide_True.
  - case_decide; simpl.
    + rewrite decide_True by done. by rewrite usp_getAll_delete.
    + by rewrite decide_False.
Qed.

Lemma usp_delete_set (sp : URLSearchParams.t) (name value : string) :
  URLSearchParams.delete (URLSearchParams.set sp name value) name
  = URLSearchParams.delete sp name.
Proof.
  induction sp as [|[k v] sp IH]; simpl.
  - by rewrite decide_True.
  - case_decide; simpl.
    + rewrite decide_True by done.
      apply usp_delete_absent, usp_get_delete.
    + rewrite decide_False by done. by rewrite IH.
Qed.

Lemma usp_set_absent (sp : URLSearchParams.t) (name value : string) :
  URLSearchParams.get sp name = None →
  URLSearchParams.set sp name value = (sp ++ [(name, value)])%list.
Proof.
  induction sp as [|[k v] sp IH]; simpl; [done|].
  case_decide; [done|]. intros Hget. by rewrite IH.
Qed.

Lemma getActivityView_All (toBoolean : string → bool) (param : option string) :
  getActivityView toBoolean param = All ↔ param = None.
Proof.
  destruct param as [s|]; simpl; [|done].
  by destruct (toBoolean s).
Qed.

Section SessionFacts.

Variable toBoolean : string → bool.

Local Abbreviation decode sp :=
  (getActivityView toBoolean (URLSearchParams.get sp VIEW_PARAM)).

Lemma exec_syncViewParam_frame (st : Component) :
  activityView (exec (syncViewParam toBoolean) st) = activityView st
  ∧ paginationModel (exec (syncViewParam toBoolean) st) = paginationModel st
  ∧ URLSearchParams.others (searchParams (exec (syncViewParam toBoolean) st)) VIEW_PARAM
    = URLSearchParams.others (searchParams st) VIEW_PARAM.
Proof.
  destruct (decide (decode (searchParams st) = activityView st)) as [Hc|Hc].
  - by rewrite exec_syncViewParam_consistent.
  - rewrite exec_syncViewParam_inconsistent by done. simpl.
    split; [done|]. split; [done|].
    case_decide; [apply usp_others_delete | apply usp_others_set].
Qed.

Lemma settle_consistent (fuel : nat) (st : Component) :
  decode (searchParams st) = activityView st →
  settle toBoolean (S fuel) st = (true, st).
Proof.
  intros Hc. simpl. unfold hbind, readUrlLog.
  rewrite hook_unit_run, exec_syncViewParam_consistent by done.
  by rewrite decide_True.
Qed.

Lemma settle_inconsistent (fuel : nat) (st : Component) :
  decode (searchParams st) ≠ activityView st →
  settle toBoolean (S fuel) st
  = settle toBoolean fuel (exec (syncViewParam toBoolean) st).
Proof.
  intros Hc. simpl. unfold hbind, readUrlLog.
  rewrite hook_unit_run, exec_syncViewParam_inconsistent by done.
  cbn [urlLog]. rewrite decide_False; [done|].
  rewrite length_app. simpl. lia.
Qed.

Lemma settle_frame (fuel : nat) (st : Component) :
  activityView (settle toBoolean fuel st).2 = activityView st
  ∧ paginationModel (settle toBoolean fuel st).2 = paginationModel st
  ∧ URLSearchParams.others (searchParams (settle toBoolean fuel st).2) VIEW_PARAM
    = URLSearchParams.others (searchParams st) VIEW_PARAM.
Proof.
  revert st. induction fuel as [|fuel IH]; intros st; [done|].
  destruct (decide (decode (searchParams st) = activityView st)) as [Hc|Hc].
  - by rewrite settle_consistent.
  - rewrite settle_inconsistent by done.
    destruct (IH (exec (syncViewParam toBoolean) st)) as (-> & -> & ->).
    apply exec_syncViewParam_frame.
Qed.

Lemma settle_two (fuel : nat) (st : Component) :
  toBoolean "true" = true → toBoolean "false" = false →
  settle toBoolean (S (S fuel)) st = (true, exec (syncViewParam toBoolean) st).
Proof.
  intros Ht Hf.
  destruct (decide (decode (searchParams st) = activityView st)) as [Hc|Hc].
  - rewrite settle_consistent by done. by rewrite exec_syncViewParam_consistent.
  - rewrite settle_inconsistent by done. apply settle_consistent.
    rewrite exec_syncViewParam_inconsistent by done. simpl.
    by apply decode_written.
Qed.

End SessionFacts.

Section SessionInvariants.

Variable toBoolean : string → bool.

Local Abbreviation decode sp :=
  (getActivityView toBoolean (URLSearchParams.get sp VIEW_PARAM)).

Local Abbreviation navCount st := (length (filter isNavigate (urlLog st))).
Local Abbreviation editCount st := (length (filter isEdit (urlLog st))).

Lemma dispatch_select (fuel : nat) (newView : option ActivityView) (st : Component) :
  dispatch toBoolean fuel (SelectView newView) st =
  if decide (default (activityView st) newView = activityView st) then (true, st)
  else settle toBoolean fuel (exec (onViewChange newView) st).
Proof.
  destruct st as [sp view pm log].
  destruct newView as [v|]; simpl; unfold hbind; simpl.
  - unfold id. case_decide as Hv; [by rewrite Hv | done].
  - by rewrite !decide_True.
Qed.

Lemma interact_cons (fuel : nat) (action : Action) (rest : list Action) (st : Component) :
  interact toBoolean fuel (action :: rest) st =
  ((dispatch toBoolean fuel action st).1
   && (interact toBoolean fuel rest (dispatch toBoolean fuel action st).2).1,
   (interact toBoolean fuel rest (dispatch toBoolean fuel action st).2).2).
Proof.
  simpl. unfold hbind, hret.
  destruct (dispatch toBoolean fuel action st) as [b st1]. simpl.
  by destruct (interact toBoolean fuel rest st1) as [b' st2].
Qed.

Lemma dispatch_frame (fuel : nat) (action : Action) (st : Component) :
  activityView (dispatch toBoolean fuel action st).2
    = lastView (activityView st) [action]
  ∧ paginationModel (dispatch toBoolean fuel action st).2
    = lastPagination (paginationModel st) [action]
  ∧ URLSearchParams.others (searchParams (dispatch toBoolean fuel action st).2) VIEW_PARAM
    = URLSearchParams.others (searchParams st) VIEW_PARAM.
Proof.
  destruct action as [newView|model]; [|done].
  rewrite dispatch_select. case_decide as Hv.
  - destruct newView as [v|]; simpl in *; [|done]. by rewrite <- Hv.
  - destruct (settle_frame toBoolean fuel (exec (onViewChange newView) st))
      as (-> & -> & ->).
    rewrite exec_onViewChange. simpl. by destruct newView.
Qed.

Lemma interact_frame (fuel : nat) (actions : list Action) (st : Component) :
  activityView (interact toBoolean fuel actions st).2
    = lastView (activityView st) actions
  ∧ paginationModel (interact toBoolean fuel actions st).2
    = lastPagination (paginationModel st) actions
  ∧ URLSearchParams.others (searchParams (interact toBoolean fuel actions st).2) VIEW_PARAM
    = URLSearchParams.others (searchParams st) VIEW_PARAM.
Proof.
  revert st. induction actions as [|action rest IH]; intros st; [done|].
  rewrite interact_cons. cbn [snd].
  destruct (IH (dispatch toBoolean fuel action st).2) as (-> & -> & ->).
  destruct (dispatch_frame fuel action st) as (-> & -> & ->).
  by destruct action as [[v|]|model].
Qed.

Lemma exec_syncViewParam_counts (st : Component) :
  navCount (exec (syncViewParam toBoolean) st)
    = (navCount st + if decide (decode (searchParams st) = activityView st) then 0 else 1)%nat
  ∧ editCount (exec (syncViewParam toBoolean) st)
    = (editCount st + if decide (decode (searchParams st) = activityView st) then 0 else 1)%nat.
Proof.
  case_decide as Hc.
  - rewrite exec_syncViewParam_consistent by done. lia.
  - rewrite exec_syncViewParam_inconsistent by done. cbn [urlLog].
    rewrite !filter_app, !length_app.
    by destruct (activityView st).
Qed.

Hypothesis Htrue : toBoolean "true" = true.
Hypothesis Hfalse : toBoolean "false" = false.

Lemma dispatch_settled (fuel : nat) (action : Action) (st : Component) :
  decode (searchParams st) = activityView st →
  (dispatch toBoolean (S (S fuel)) action st).1 = true
  ∧ decode (searchParams (dispatch toBoolean (S (S fuel)) action st).2)
    = activityView (dispatch toBoolean (S (S fuel)) action st).2
  ∧ navCount (dispatch toBoolean (S (S fuel)) action st).2
    = (navCount st + viewChanges (activityView st) [action])%nat
  ∧ editCount (dispatch toBoolean (S (S fuel)) action st).2
    = (editCount st + viewChanges (activityView st) [action])%nat.
Proof.
  intros Hc. destruct action as [newView|model].
  - rewrite dispatch_select. case_decide as Hv.
    + cbn [fst snd]. split; [done|]. split; [done|].
      destruct newView as [v|]; simpl in *.
      * rewrite decide_True by done. lia.
      * lia.
    + rewrite settle_two by done. cbn [fst snd].
      destruct newView as [v|]; [|done]. simpl in Hv. unfold id in Hv.
      rewrite exec_onViewChange. simpl. unfold id.
      set (st1 := {| searchParams := searchParams st; activityView := v;
                     paginationModel := paginationModel st; urlLog := urlLog st |}).
      assert (decode (searchParams st1) ≠ activityView st1) as Hne
        by (simpl; congruence).
      destruct (exec_syncViewParam_counts st1) as [Hn He].
      rewrite decide_False in Hn, He by done.
      rewrite Hn, He, decide_False by done.
      split; [done|]. split; [|simpl; lia].
      rewrite exec_syncViewParam_inconsistent by done. simpl.
      by apply decode_written.
  - simpl. split; [done|]. split; [done|]. lia.
Qed.

Lemma interact_settled (fuel : nat) (actions : list Action) (st : Component) :
  decode (searchParams st) = activityView st →
  (interact toBoolean (S (S fuel)) actions st).1 = true
  ∧ decode (searchParams (interact toBoolean (S (S fuel)) actions st).2)
    = activityView (interact toBoolean (S (S fuel)) actions st).2
  ∧ navCount (interact toBoolean (S (S fuel)) actions st).2
    = (navCount st + viewChanges (activityView st) actions)%nat
  ∧ editCount (interact toBoolean (S (S fuel)) actions st).2
    = (editCount st + viewChanges (activityView st) actions)%nat.
Proof.
  revert st. induction actions as [|action rest IH]; intros st Hc.
  - simpl. split; [done|]. split; [done|]. lia.
  - rewrite interact_cons. cbn [fst snd].
    destruct (dispatch_settled fuel action st Hc) as (Hb & Hc1 & Hn & He).
    destruct (IH _ Hc1) as (Hb' & Hc2 & Hn' & He').
    rewrite Hb, Hb', Hn', He', Hn, He.
    destruct (dispatch_frame (S (S fuel)) action st) as (Hview & _).
    rewrite Hview.
    split; [done|]. split; [done|].
    destruct action as [[v|]|model]; simpl; lia.
Qed.

End SessionInvariants.

Lemma settle_mount (toBoolean : string → bool) (fuel : nat) (query : URLSearchParams.t) :
  settle toBoolean fuel (mount toBoolean query)
  = (match fuel with O => false | S _ => true end, mount toBoolean query).
Proof. destruct fuel; [done|]. by apply settle_consistent. Qed.

Lemma session_interact (toBoolean : string → bool) (fuel : nat)
    (query : URLSearchParams.t) (actions : list Action) :
  session toBoolean fuel query actions
  = (match fuel with O => false | S _ => true end
     && (interact toBoolean fuel actions (mount toBoolean query)).1,
     (interact toBoolean fuel actions (mount toBoolean query)).2).
Proof.
  unfold session, hbind, hret. rewrite settle_mount.
  by destruct (interact toBoolean fuel actions (mount toBoolean query)).
Qed.

(** X1. When the coercion reads "true" as true and "false" as false, the
    runs of the effect after a render end of themselves: two runs are
    enough, they leave the state of a single run, navigate at most once,
    and a further series of runs changes nothing. *)
Theorem settle_ends (toBoolean : string → bool)
    (Htrue : toBoolean "true" = true) (Hfalse : toBoolean "false" = false)
    (fuel : nat) (st : Component) :
  settle toBoolean (S (S fuel)) st = (true, exec (syncViewParam toBoolean) st)
  ∧ (navigations (settle toBoolean (S (S fuel))) st ≤ 1)%nat
  ∧ settle toBoolean (S fuel) (exec (syncViewParam toBoolean) st)
    = (true, exec (syncViewParam toBoolean) st).
Proof.
  split; [by apply settle_two|]. split.
  - unfold navigations, performed, exec. rewrite settle_two by done. cbn [snd].
    fold (performed (syncViewParam toBoolean) st).
    rewrite performed_syncViewParam. case_decide; simpl; [lia|].
    by destruct (activityView st); simpl; lia.
  - apply settle_consistent.
    destruct (decide (getActivityView toBoolean
                        (URLSearchParams.get (searchParams st) VIEW_PARAM)
                      = activityView st)) as [Hc|Hc].
    + by rewrite exec_syncViewParam_consistent.
    + rewrite exec_syncViewParam_inconsistent by done. simpl.
      by apply decode_written.
Qed.

Lemma settle_ends_witness :
  StringUtils.toBoolean "true" = true
  ∧ StringUtils.toBoolean "false" = false
  ∧ settle StringUtils.toBoolean 2
      {| searchParams := [("useractivity", "true")];
         activityView := System;
         paginationModel := {| page := 0; pageSize := 25 |};
         urlLog := [] |}
    = (true,
       {| searchParams := [("useractivity", "false")];
          activityView := System;
          paginationModel := {| page := 0; pageSize := 25 |};
          urlLog := [SearchParamsSet "useractivity" "false";
                     Navigate [("useractivity", "false")]] |}).
Proof.
  split; [reflexivity|]. split; [reflexivity|].
  apply (settle_ends StringUtils.toBoolean eq_refl eq_refl 0
           {| searchParams := [("useractivity", "true")];
              activityView := System;
              paginationModel := {| page := 0; pageSize := 25 |};
              urlLog := [] |}).
Defined.

(** X2. Opening the page never touches the URL: whatever the query and the
    coercion, the effect of the first render finds the view mode consistent
    with the query, and the page is in its mounted state with an empty log. *)
Theorem session_opens_untouched (toBoolean : string → bool) (fuel : nat)
    (query : URLSearchParams.t) :
  session toBoolean (S fuel) query [] = (true, mount toBoolean query)
  ∧ searchParams (session toBoolean (S fuel) query []).2 = query
  ∧ urlLog (session toBoolean (S fuel) query []).2 = [].
Proof. by rewrite session_interact. Qed.

(** X3. The URL a visit leaves behind reopens the page in the same view
    mode, with the same user filter in the fetch parameters; every series of
    effect runs of the visit has ended. *)
Theorem session_reload (toBoolean : string → bool)
    (Htrue : toBoolean "true" = true) (Hfalse : toBoolean "false" = false)
    (fuel : nat) (query : URLSearchParams.t) (actions : list Action) :
  let visit := session toBoolean (S (S fuel)) query actions in
  visit.1 = true
  ∧ activityView (mount toBoolean (searchParams visit.2)) = activityView visit.2
  ∧ hasUserId (activityParams (mount toBoolean (searchParams visit.2)))
    = hasUserId (activityParams visit.2).
Proof.
  cbv zeta. rewrite session_interact. cbn [fst snd].
  destruct (interact_settled toBoolean Htrue Hfalse fuel actions
              (mount toBoolean query) eq_refl) as (Hb & Hc & _).
  rewrite Hb. split; [done|].
  assert (activityView
            (mount toBoolean
               (searchParams
                  (interact toBoolean (S (S fuel)) actions (mount toBoolean query)).2))
          = activityView
              (interact toBoolean (S (S fuel)) actions (mount toBoolean query)).2)
    as Hview by exact Hc.
  split; [exact Hview|]. unfold activityParams. cbn [hasUserId].
  by rewrite Hview.
Qed.

Lemma session_reload_witness :
  StringUtils.toBoolean "true" = true
  ∧ StringUtils.toBoolean "false" = false
  ∧ activityView
      (mount StringUtils.toBoolean
         (searchParams
            (session StringUtils.toBoolean 2 [("tab", "log")]
               [SelectView (Some User);
                ChangePagination {| page := 3; pageSize := 50 |};
                SelectView (Some System)]).2))
    = activityView
        (session StringUtils.toBoolean 2 [("tab", "log")]
           [SelectView (Some User);
            ChangePagination {| page := 3; pageSize := 50 |};
            SelectView (Some System)]).2.
Proof.
  split; [reflexivity|]. split; [reflexivity|].
  apply (session_reload StringUtils.toBoolean eq_refl eq_refl 0 [("tab", "log")]
           [SelectView (Some User);
            ChangePagination {| page := 3; pageSize := 50 |};
            SelectView (Some System)]).
Defined.

(** X4. After a visit the view mode is the last one selected (the one of the
    query when none was) and the pagination model is the last one the grid
    sent (page 0 of size 25 when none was): selections never move the page,
    and page changes never move the view mode. *)
Theorem session_view_and_pagination (toBoolean : string → bool) (fuel : nat)
    (query : URLSearchParams.t) (actions : list Action) :
  activityView (session toBoolean fuel query actions).2
    = lastView (getActivityView toBoolean (URLSearchParams.get query VIEW_PARAM))
        actions
  ∧ paginationModel (session toBoolean fuel query actions).2
    = lastPagination {| page := 0; pageSize := DEFAULT_PAGE_SIZE |} actions.
Proof.
  rewrite session_interact. cbn [snd].
  by destruct (interact_frame toBoolean fuel actions (mount toBoolean query))
    as (-> & -> & _).
Qed.

(** X5. Through a whole visit, whatever is selected and paged and however
    often the effect runs, the query parameters of other names stay the pairs
    of the opening query, in their order. *)
Theorem session_keeps_other_params (toBoolean : string → bool) (fuel : nat)
    (query : URLSearchParams.t) (actions : list Action) :
  URLSearchParams.others (searchParams (session toBoolean fuel query actions).2)
    VIEW_PARAM
  = URLSearchParams.others query VIEW_PARAM.
Proof.
  rewrite session_interact. cbn [snd].
  by destruct (interact_frame toBoolean fuel actions (mount toBoolean query))
    as (_ & _ & ->).
Qed.

(** X6. A visit navigates once, after one in-place edit of the search
    parameters, for each selection that changes the view mode, and not
    otherwise: not when the page opens, not for a selection of the current
    mode or a cleared selection, not for a change of page or page size. *)
Theorem session_navigations (toBoolean : string → bool)
    (Htrue : toBoolean "true" = true) (Hfalse : toBoolean "false" = false)
    (fuel : nat) (query : URLSearchParams.t) (actions : list Action) :
  let visit := session toBoolean (S (S fuel)) query actions in
  length (filter isNavigate (urlLog visit.2))
    = viewChanges (getActivityView toBoolean (URLSearchParams.get query VIEW_PARAM))
        actions
  ∧ length (filter isEdit (urlLog visit.2))
    = viewChanges (getActivityView toBoolean (URLSearchParams.get query VIEW_PARAM))
        actions.
Proof.
  cbv zeta. rewrite session_interact. cbn [snd].
  destruct (interact_settled toBoolean Htrue Hfalse fuel actions
              (mount toBoolean query) eq_refl) as (_ & _ & Hn & He).
  by rewrite Hn, He.
Qed.

Lemma session_navigations_witness :
  StringUtils.toBoolean "true" = true
  ∧ StringUtils.toBoolean "false" = false
  ∧ length (filter isNavigate
              (urlLog
                 (session StringUtils.toBoolean 2 [("useractivity", "yes")]
                    [SelectView (Some User);
                     ChangePagination {| page := 1; pageSize := 25 |};
                     SelectView None;
                     SelectView (Some All);
                     SelectView (Some System)]).2))
    = 2%nat.
Proof.
  split; [reflexivity|]. split; [reflexivity|].
  apply (session_navigations StringUtils.toBoolean eq_refl eq_refl 0
           [("useractivity", "yes")]
           [SelectView (Some User);
            ChangePagination {| page := 1; pageSize := 25 |};
            SelectView None;
            SelectView (Some All);
            SelectView (Some System)]).
Defined.

(** ** The written query *)

Lemma searchParams_viewChange (toBoolean : string → bool) (st : Component)
    (mode : ActivityView) :
  searchParams (exec (viewChange toBoolean mode) st) =
  if decide (getActivityView toBoolean
               (URLSearchParams.get (searchParams st) VIEW_PARAM) = mode)
  then searchParams st
  else if decide (mode = All)
       then URLSearchParams.delete (searchParams st) VIEW_PARAM
       else URLSearchParams.set (searchParams st) VIEW_PARAM
              (Js.ofBool (bool_decide (mode = User))).
Proof.
  rewrite exec_viewChange, exec_onViewChange. simpl. unfold id.
  set (st1 := {| searchParams := searchParams st; activityView := mode;
                 paginationModel := paginationModel st; urlLog := urlLog st |}).
  case_decide as Hc.
  - by rewrite (exec_syncViewParam_consistent toBoolean st1) by exact Hc.
  - by rewrite (exec_syncViewParam_inconsistent toBoolean st1) by exact Hc.
Qed.

Lemma searchParams_viewChange_All (toBoolean : string → bool) (st : Component) :
  searchParams (exec (viewChange toBoolean All) st)
  = URLSearchParams.delete (searchParams st) VIEW_PARAM.
Proof.
  rewrite searchParams_viewChange. case_decide as Hc; [|done].
  apply getActivityView_All in Hc. by rewrite usp_delete_absent.
Qed.

(** X7. Selecting All leaves the query without any [useractivity] pair and
    with every other pair in place, whatever the query was: parameter absent,
    once, or several times, with any value. *)
Theorem viewChange_All_strips (toBoolean : string → bool) (st : Component) :
  searchParams (exec (viewChange toBoolean All) st)
    = URLSearchParams.delete (searchParams st) VIEW_PARAM
  ∧ URLSearchParams.get (searchParams (exec (viewChange toBoolean All) st)) VIEW_PARAM
    = None
  ∧ URLSearchParams.getAll (searchParams (exec (viewChange toBoolean All) st)) VIEW_PARAM
    = [].
Proof.
  rewrite searchParams_viewChange_All.
  split; [done|]. split; [apply usp_get_delete | apply usp_getAll_delete].
Qed.

(** X8. On a query without [useractivity], selecting User or System appends
    the pair at the end of the query, and selecting All afterwards gives the
    original query back, pair for pair. *)
Theorem viewChange_query_roundtrip (toBoolean : string → bool) (st : Component)
    (mode : ActivityView)
    (Habsent : URLSearchParams.get (searchParams st) VIEW_PARAM = None) :
  searchParams (exec (viewChange toBoolean mode) st)
    = (if decide (mode = All) then searchParams st
       else searchParams st ++ [(VIEW_PARAM, Js.ofBool (bool_decide (mode = User)))])%list
  ∧ searchParams (exec (viewChange toBoolean All) (exec (viewChange toBoolean mode) st))
    = searchParams st.
Proof.
  rewrite searchParams_viewChange_All, searchParams_viewChange, Habsent. simpl.
  destruct (decide (mode = All)) as [->|Hm].
  - rewrite decide_True by done. split; [done|]. by apply usp_delete_absent.
  - rewrite decide_False by done.
    rewrite usp_set_absent by done. split; [done|].
    rewrite <- (usp_set_absent _ _ _ Habsent), usp_delete_set.
    by apply usp_delete_absent.
Qed.

Lemma viewChange_query_roundtrip_witness :
  URLSearchParams.get [("tab", "log"); ("page", "2")] VIEW_PARAM = None
  ∧ searchParams
      (exec (viewChange StringUtils.toBoolean All)
         (exec (viewChange StringUtils.toBoolean System)
            (mount StringUtils.toBoolean [("tab", "log"); ("page", "2")])))
    = [("tab", "log"); ("page", "2")].
Proof.
  split; [reflexivity|].
  apply (viewChange_query_roundtrip StringUtils.toBoolean
           (mount StringUtils.toBoolean [("tab", "log"); ("page", "2")])
           System eq_refl).
Defined.

(** X9. When the effect writes the view mode, the query holds the parameter
    at most once afterwards, however often it held it before: no value for
    All, the one value "true" for User, the one value "false" for System.
    When it does not write, the values are those of before. *)
Theorem viewChange_collapses_duplicates (toBoolean : string → bool)
    (st : Component) (mode : ActivityView) :
  URLSearchParams.getAll (searchParams (exec (viewChange toBoolean mode) st)) VIEW_PARAM
  = if decide (getActivityView toBoolean
                 (URLSearchParams.get (searchParams st) VIEW_PARAM) = mode)
    then URLSearchParams.getAll (searchParams st) VIEW_PARAM
    else match mode with
         | All => []
         | User => ["true"]
         | System => ["false"]
         end.
Proof.
  rewrite searchParams_viewChange. case_decide as Hc; [done|].
  destruct mode; simpl;
    [apply usp_getAll_delete | apply usp_getAll_set | apply usp_getAll_set].
Qed.

(** ** More on the user directory *)

(** X10. Of several fetched users with one identifier, the directory keeps
    the last: a user with a non-empty identifier is the entry of that
    identifier when no later user of the sequence has it. *)
Theorem users_last_wins (before after : list UserDto.t) (user : UserDto.t)
    (key : string)
    (Hid : UserDto.Id user = Val key) (Hkey : key ≠ "")
    (Hlater : Forall (λ later, UserDto.Id later ≠ Val key) after) :
  users (Some (before ++ user :: after)%list) !! key = Some user.
Proof.
  rewrite users_lookup, decide_False by done.
  rewrite filter_app, filter_cons_True by done.
  assert (filter (λ u, UserDto.Id u = Val key) after = []) as ->.
  { induction Hlater as [|u l Hu _ IH]; [done|].
    by rewrite filter_cons_False. }
  by rewrite last_snoc.
Qed.

Lemma users_last_wins_witness :
  UserDto.Id {| UserDto.Id := Val "u1"; UserDto.Name := Val "Alice (new)" |} = Val "u1"
  ∧ "u1" ≠ ""
  ∧ users (Some [ {| UserDto.Id := Val "u1"; UserDto.Name := Val "Alice" |};
                  {| UserDto.Id := Val "u1"; UserDto.Name := Val "Alice (new)" |};
                  {| UserDto.Id := Val "u2"; UserDto.Name := Null |} ]) !! "u1"
    = Some {| UserDto.Id := Val "u1"; UserDto.Name := Val "Alice (new)" |}.
Proof.
  assert ("u1" ≠ "") as Hkey by (intros E; discriminate E).
  split; [reflexivity|]. split; [exact Hkey|].
  apply (users_last_wins
           [ {| UserDto.Id := Val "u1"; UserDto.Name := Val "Alice" |} ]
           [ {| UserDto.Id := Val "u2"; UserDto.Name := Null |} ]
           {| UserDto.Id := Val "u1"; UserDto.Name := Val "Alice (new)" |}
           "u1" eq_refl Hkey).
  apply Forall_cons. split; [intros E; discriminate E | apply Forall_nil].
  exact I.
Defined.

(** X11. The directory never has more entries than fetched users with a
    non-empty identifier, and none while the users are not fetched. *)
Theorem users_size (usersData : option (list UserDto.t)) :
  (size (users usersData)
   ≤ length (filter (λ user, Js.truthy (UserDto.Id user) = true)
               (default [] usersData)))%nat
  ∧ (size (users usersData) ≤ length (default [] usersData))%nat
  ∧ (usersData = None → users usersData = ∅).
Proof.
  assert (size (users usersData)
          ≤ length (filter (λ user, Js.truthy (UserDto.Id user) = true)
                      (default [] usersData)))%nat as Hsize.
  { destruct usersData as [data|]; [|done]. unfold users. simpl.
    induction data as [|user data IH] using rev_ind; [done|].
    rewrite foldl_app, filter_app, length_app. simpl.
    destruct (Js.truthy (UserDto.Id user)) eqn:Htruthy; simpl.
    - rewrite filter_cons_True by done. simpl.
      rewrite map_size_insert.
      destruct (_ !! _); unfold id; lia.
    - rewrite filter_cons_False by (by rewrite Htruthy). simpl. lia. }
  split; [exact Hsize|]. split; [|by intros ->].
  etrans; [exact Hsize|]. apply length_filter.
Qed.

(** ** More on columns, row keys and cells *)

(** X12. The view mode decides on the user column and on nothing else:
    without the column of field [User], the columns of every view mode are
    those of System, in the same order; and no two columns of a view mode
    share their field. *)
Theorem columns_frame (view : ActivityView) :
  filter (λ col, field col ≠ "User") (columns view) = columns System
  ∧ NoDup (field <$> columns view).
Proof.
  split.
  - by destruct view.
  - destruct view; simpl;
      repeat (apply NoDup_cons; split;
              [rewrite ?elem_of_cons, elem_of_nil; intros Hin;
               repeat (destruct Hin as [Hin|Hin]; [discriminate Hin|]); exact Hin|]);
      apply NoDup_nil_2.
Qed.

Lemma getRowId_nullish_elem (row : ActivityLogEntry.t) (rows : list ActivityLogEntry.t) :
  row ∈ rows → Js.isNullish (ActivityLogEntry.Id row) = true →
  -1 ∈ getRowId <$> rows.
Proof.
  intros Hin Hnull. apply list_elem_of_fmap. exists row. split; [|done].
  unfold getRowId. by destruct (ActivityLogEntry.Id row).
Qed.

(** X13. Row keys tell rows with identifiers apart exactly as the
    identifiers do, but all rows without identifier share the key -1: a
    page of rows has pairwise distinct keys only if at most one of its rows
    lacks the identifier. *)
Theorem getRowId_keys (rows : list ActivityLogEntry.t) :
  (∀ r1 r2 a b,
     ActivityLogEntry.Id r1 = Val a → ActivityLogEntry.Id r2 = Val b →
     (getRowId r1 = getRowId r2 ↔ a = b))
  ∧ (∀ r1 r2,
       Js.isNullish (ActivityLogEntry.Id r1) = true →
       Js.isNullish (ActivityLogEntry.Id r2) = true →
       getRowId r1 = getRowId r2)
  ∧ (NoDup (getRowId <$> rows) →
     (length (filter (λ row, Js.isNullish (ActivityLogEntry.Id row) = true) rows)
      ≤ 1)%nat).
Proof.
  split; [|split].
  - intros r1 r2 a b H1 H2. unfold getRowId. by rewrite H1, H2.
  - intros r1 r2 H1 H2. unfold getRowId.
    by destruct (ActivityLogEntry.Id r1), (ActivityLogEntry.Id r2).
  - induction rows as [|row rows IH]; [simpl; lia|].
    rewrite fmap_cons, NoDup_cons. intros [Hnotin Hnodup].
    destruct (Js.isNullish (ActivityLogEntry.Id row)) eqn:Hnull.
    + rewrite filter_cons_True by done.
      assert (filter (λ row, Js.isNullish (ActivityLogEntry.Id row) = true) rows = [])
        as ->; [|simpl; lia].
      destruct (filter _ rows) as [|other l] eqn:Hf; [done|]. exfalso.
      assert (other ∈ filter (λ row, Js.isNullish (ActivityLogEntry.Id row) = true) rows)
        as Hother by (rewrite Hf; apply list_elem_of_here).
      apply list_elem_of_filter in Hother as [Hnull' Hin].
      apply Hnotin.
      replace (getRowId row) with (-1)
        by (unfold getRowId; by destruct (ActivityLogEntry.Id row)).
      by apply (getRowId_nullish_elem other).
    + rewrite filter_cons_False by (by rewrite Hnull). by apply IH.
Qed.


(** X15. The overview cell shows the short overview whenever the entry has
    one, the empty text included, and the long overview otherwise; it has
    nothing to show only when both are missing. *)
Theorem overviewValueGetter_prefers_short (row : OverviewFields.t) :
  (∀ text, OverviewFields.ShortOverview row = Val text →
     overviewValueGetter row = Val text)
  ∧ (Js.isNullish (OverviewFields.ShortOverview row) = true →
     overviewValueGetter row = OverviewFields.Overview row)
  ∧ (Js.isNullish (overviewValueGetter row) = true
     ↔ Js.isNullish (OverviewFields.ShortOverview row) = true
       ∧ Js.isNullish (OverviewFields.Overview row) = true).
Proof.
  unfold overviewValueGetter.
  destruct (OverviewFields.ShortOverview row) as [| |short]; simpl.
  - split; [done|]. split; [done|]. tauto.
  - split; [done|]. split; [done|]. tauto.
  - split; [by intros text [= ->]|]. split; [done|].
    split; [done | by intros [? _]].
Qed.

(** ** More on the fetch parameters *)

(** X16. With a positive page size the pages tile the log, as far as the
    product of page index and page size is exact (at most 2^53 in
    magnitude): the start index of such a page is that product, and an entry
    index from 0 on lies in the range from the start index to the start
    index plus [limit] of exactly one page, the one whose index is the
    quotient of the entry index by the page size. *)
Theorem activityParams_pages_tile (st : Component) (size index p : Z)
    (Hsize : 0 < size) (Hindex : 0 ≤ index)
    (Hexact : Z.abs (p * size) ≤ 2 ^ 53) :
  let params :=
    activityParams (exec (setPaginationModel {| page := p; pageSize := size |}) st) in
  ∃ start,
    startIndex params = Js.Int start
    ∧ (start ≤ index < start + limit params ↔ p = index / size).
Proof.
  cbv zeta. exists (p * size). split.
  - unfold activityParams, exec. cbn [startIndex]. simpl.
    by apply Js_mul_exact.
  - unfold activityParams, exec. simpl. split.
    + intros [Hlo Hhi]. apply (Z.div_unique index size p (index - p * size)); lia.
    + intros ->.
      pose proof (Z.mul_div_le index size Hsize).
      pose proof (Z.mul_succ_div_gt index size Hsize). lia.
Qed.

Lemma activityParams_pages_tile_witness :
  0 < 25 ∧ 0 ≤ 60 ∧ Z.abs (2 * 25) ≤ 2 ^ 53
  ∧ ∃ start,
      startIndex
        (activityParams
           (exec (setPaginationModel {| page := 2; pageSize := 25 |})
              (mount StringUtils.toBoolean []))) = Js.Int start
      ∧ (start ≤ 60
         < start
           + limit
               (activityParams
                  (exec (setPaginationModel {| page := 2; pageSize := 25 |})
                     (mount StringUtils.toBoolean [])))
         ↔ 2 = 60 / 25).
Proof.
  assert (0 < 25) as Hsize by lia. assert (0 ≤ 60) as Hindex by lia.
  assert (Z.abs (2 * 25) ≤ 2 ^ 53) as Hexact by (by vm_compute).
  split; [exact Hsize|]. split; [exact Hindex|]. split; [exact Hexact|].
  apply (activityParams_pages_tile (mount StringUtils.toBoolean []) 25 60 2
           Hsize Hindex Hexact).
Defined.
